(** * safe-driver: the camera classification screen of [src/app/App.js]

    A shallow embedding of the [App] function component: its five
    [useState] hooks, the closures each render creates ([getPrediction],
    [handleCameraStream] and its [loop], [loadNewPrediction]), the two
    [useEffect] hooks and the JSX it returns.

    JavaScript numbers are binary64 floats, so the probability of a
    prediction is a primitive [float] and the comparison with [0.3] is
    [PrimFloat.ltb].  The pretrained classifier, the camera and the
    animation-frame timer are outside the repository: the classifier is a
    function carried by the model handle, frames and timer ticks are events
    the environment feeds to the component.

    Every call of [App] creates its closures anew.  They see the hook
    values of that call, which never change for them, and the variable
    [requestAnimationFrameId] of that call, which they share.  The world
    keeps one entry per render for both.  The [console.log] calls are left
    out. *)

From Stdlib Require Import ZArith String List Bool PrimFloat Lia.
From stdpp Require Import base option list gmap.
Import ListNotations.

(* [0.3] is read as JavaScript reads it: the binary64 value nearest to it. *)
Set Warnings "-register-all,-inexact-float,-clear-no-such-hyp".

Open Scope string_scope.
Open Scope Z_scope.
Open Scope list_scope.

(** ** Values exchanged with the libraries *)

(** A tensor is an opaque object handed out by the camera iterator. *)
Inductive Tensor : Type :=
| TensorRef (frame : nat).

(** One entry of the array [classify] resolves to:
    [{"className": ..., "probability": ...}]. *)
Record Prediction : Type := mkPrediction {
  className : string;
  probability : float
}.

(** The handle [mobilenet.load()] resolves to.  [classify tensor topk]
    resolves to an array of predictions; the code also tests the result for
    being null, hence the [option]. *)
Record Model : Type := mkModel {
  classify : Tensor -> nat -> option (list Prediction)
}.

(** ** Hook state (App.js, lines 26-33) *)

Record State : Type := mkState {
  predictionFound : bool;
  hasPermission : option bool;
  prediction : string;
  mobilenetModel : option Model;
  frameworkReady : bool
}.

(** The arguments of the five [useState] calls. *)
Definition initialState : State :=
  {| predictionFound := false;
     hasPermission := None;
     prediction := "";
     mobilenetModel := None;
     frameworkReady := false |}.

(** The five hooks, in the order of their [useState] calls, each with the
    type of the value it holds. *)
Inductive Hook : Type :=
| HookPredictionFound
| HookHasPermission
| HookPrediction
| HookMobilenetModel
| HookFrameworkReady.

Definition hooksOfApp : list Hook :=
  [HookPredictionFound; HookHasPermission; HookPrediction;
   HookMobilenetModel; HookFrameworkReady].

Definition hookType (h : Hook) : Type :=
  match h with
  | HookPredictionFound => bool
  | HookHasPermission => option bool
  | HookPrediction => string
  | HookMobilenetModel => option Model
  | HookFrameworkReady => bool
  end.

Definition hookValue (h : Hook) (s : State) : hookType h :=
  match h with
  | HookPredictionFound => predictionFound s
  | HookHasPermission => hasPermission s
  | HookPrediction => prediction s
  | HookMobilenetModel => mobilenetModel s
  | HookFrameworkReady => frameworkReady s
  end.

(** ** The world the component runs in *)

(** What one call of [App] (one render) leaves behind for its closures:
    the hook values it read, which are constants of that call, and its own
    [let requestAnimationFrameId = 0], which its closures read and assign. *)
Record Render : Type := mkRender {
  captured : State;
  requestAnimationFrameId : Z
}.

(** Calls the component makes, in the order it makes them. *)
Inductive Call : Type :=
| CallNext
| CallClassify (tensor : Tensor) (topk : nat)
| CallCancelAnimationFrame (id : Z)
| CallRequestAnimationFrame (id : Z)
| CallSetPredictionFound (b : bool)
| CallSetHasPermission (b : bool)
| CallSetPrediction (s : string)
| CallSetMobilenetModel
| CallSetFrameworkReady (b : bool)
| UnhandledRejection.

(** Where the async function of the first effect stands; past the first
    [await] it holds its local [status]. *)
Inductive InitStage : Type :=
| InitSkipped
| AwaitPermissions
| AwaitTfReady (status : string)
| AwaitMobilenet (status : string)
| InitDone (status : string).

Record World : Type := mkWorld {
  hooks : State;                (* the values React holds for the hooks *)
  dirty : bool;                 (* a setter ran since the last render *)
  renders : list Render;        (* render k is entry k *)
  scheduled : gmap Z nat;       (* pending animation frames: id, render of its [loop] *)
  nextFrameId : Z;              (* the id requestAnimationFrame returns next *)
  initEffect : InitStage;
  unmountEffect : nat * Z;      (* render whose cleanup is registered, its dependency value *)
  mounted : bool;
  calls : list Call
}.

Definition withHooks (f : State -> State) (w : World) : World :=
  mkWorld (f (hooks w)) true (renders w) (scheduled w) (nextFrameId w)
          (initEffect w) (unmountEffect w) (mounted w) (calls w).

Definition withRenders (f : list Render -> list Render) (w : World) : World :=
  mkWorld (hooks w) (dirty w) (f (renders w)) (scheduled w) (nextFrameId w)
          (initEffect w) (unmountEffect w) (mounted w) (calls w).

Definition withScheduled (f : gmap Z nat -> gmap Z nat) (w : World) : World :=
  mkWorld (hooks w) (dirty w) (renders w) (f (scheduled w)) (nextFrameId w)
          (initEffect w) (unmountEffect w) (mounted w) (calls w).

Definition withNextFrameId (n : Z) (w : World) : World :=
  mkWorld (hooks w) (dirty w) (renders w) (scheduled w) n
          (initEffect w) (unmountEffect w) (mounted w) (calls w).

Definition withInitEffect (i : InitStage) (w : World) : World :=
  mkWorld (hooks w) (dirty w) (renders w) (scheduled w) (nextFrameId w)
          i (unmountEffect w) (mounted w) (calls w).

Definition withUnmountEffect (u : nat * Z) (w : World) : World :=
  mkWorld (hooks w) (dirty w) (renders w) (scheduled w) (nextFrameId w)
          (initEffect w) u (mounted w) (calls w).

Definition withMounted (b : bool) (w : World) : World :=
  mkWorld (hooks w) (dirty w) (renders w) (scheduled w) (nextFrameId w)
          (initEffect w) (unmountEffect w) b (calls w).

Definition logCall (c : Call) (w : World) : World :=
  mkWorld (hooks w) (dirty w) (renders w) (scheduled w) (nextFrameId w)
          (initEffect w) (unmountEffect w) (mounted w) (calls w ++ [c]).

(** The closure environment of render [r].  A render that does not exist
    has no closures to call; the fallback is the first line of every
    render, [let requestAnimationFrameId = 0], over the initial hooks. *)
Definition closure (r : nat) (w : World) : Render :=
  default (mkRender initialState 0) (renders w !! r).

Definition latest (w : World) : nat := Nat.pred (length (renders w)).

(** ** Statements that read and write the world, and may throw *)

Inductive JsError : Type :=
| TypeError.

Inductive Completion (A : Type) : Type :=
| Normal (a : A)
| Threw (e : JsError).
Arguments Normal {A} a.
Arguments Threw {A} e.

Definition Js (A : Type) : Type := World -> Completion A * World.

#[global] Instance Js_ret : MRet Js :=
  fun A a w => (Normal a, w).

#[global] Instance Js_bind : MBind Js :=
  fun A B k c w =>
    match c w with
    | (Normal a, w') => k a w'
    | (Threw e, w') => (Threw e, w')
    end.

Definition throw {A : Type} (e : JsError) : Js A :=
  fun w => (Threw e, w).

Definition effect (f : World -> World) : Js unit :=
  fun w => (Normal tt, f w).

Definition call (c : Call) : Js unit := effect (logCall c).

Definition readHooksOf (r : nat) : Js State :=
  fun w => (Normal (captured (closure r w)), w).

Definition readRequestAnimationFrameId (r : nat) : Js Z :=
  fun w => (Normal (requestAnimationFrameId (closure r w)), w).

(** [requestAnimationFrameId = id] inside a closure of render [r]. *)
Definition assignRequestAnimationFrameId (r : nat) (id : Z) : Js unit :=
  effect (withRenders (fun rs =>
    match rs !! r with
    | Some c => <[r := mkRender (captured c) id]> rs
    | None => rs
    end)).

Definition cancelIn (id : Z) (w : World) : World :=
  withScheduled (delete id) (logCall (CallCancelAnimationFrame id) w).

(** Calling [App] again: the new render captures the current hook values
    and starts from its own [requestAnimationFrameId = 0].  The second
    effect lists [requestAnimationFrameId] as its dependency, read during
    the render: React keeps the registered cleanup while that value is the
    one it registered with, and otherwise runs the old cleanup and
    registers the new render's. *)
Definition rerender (w : World) : World :=
  let fresh := mkRender (hooks w) 0 in
  let w1 :=
    mkWorld (hooks w) false (renders w ++ [fresh]) (scheduled w) (nextFrameId w)
            (initEffect w) (unmountEffect w) (mounted w) (calls w) in
  let '(owner, dep) := unmountEffect w in
  if Z.eqb dep (requestAnimationFrameId fresh) then w1
  else withUnmountEffect (latest w1, requestAnimationFrameId fresh)
         (cancelIn (requestAnimationFrameId (closure owner w1)) w1).

(** The state setters: React stores the value and will call [App] again.
    The closures of earlier renders keep what they captured.  (The hooks
    of a component that is gone are shown nowhere; the setters are not
    told apart by [mounted].) *)
Definition setPredictionFound (b : bool) : Js unit :=
  call (CallSetPredictionFound b);;
  effect (withHooks (fun s =>
    mkState b (hasPermission s) (prediction s) (mobilenetModel s) (frameworkReady s))).

Definition setHasPermission (b : bool) : Js unit :=
  call (CallSetHasPermission b);;
  effect (withHooks (fun s =>
    mkState (predictionFound s) (Some b) (prediction s) (mobilenetModel s) (frameworkReady s))).

Definition setPrediction (p : string) : Js unit :=
  call (CallSetPrediction p);;
  effect (withHooks (fun s =>
    mkState (predictionFound s) (hasPermission s) p (mobilenetModel s) (frameworkReady s))).

Definition setMobilenetModel (m : option Model) : Js unit :=
  call CallSetMobilenetModel;;
  effect (withHooks (fun s =>
    mkState (predictionFound s) (hasPermission s) (prediction s) m (frameworkReady s))).

Definition setFrameworkReady (b : bool) : Js unit :=
  call (CallSetFrameworkReady b);;
  effect (withHooks (fun s =>
    mkState (predictionFound s) (hasPermission s) (prediction s) (mobilenetModel s) b)).

(** The timer: [cancelAnimationFrame] drops a pending callback and does
    nothing for an id that is not pending; [requestAnimationFrame] hands
    out a fresh id for the [loop] of render [r]. *)
Definition cancelAnimationFrame (id : Z) : Js unit :=
  effect (cancelIn id).

Definition requestAnimationFrame (r : nat) : Js Z :=
  fun w =>
    let id := nextFrameId w in
    (Normal id,
     withNextFrameId (id + 1)
       (withScheduled (insert id r) (logCall (CallRequestAnimationFrame id) w))).

(** ** The closures of a render (App.js, lines 117-161) *)

Definition getPrediction (r : nat) (tensor : option Tensor) : Js unit :=
  match tensor with
  | None => mret tt
  | Some t =>
      s ← readHooksOf r;
      match mobilenetModel s with
      | None => throw TypeError
      | Some model =>
          call (CallClassify t 1);;
          match classify model t 1 with
          | None => mret tt
          | Some [] => mret tt
          | Some (top :: _) =>
              if (0.3 <? probability top)%float then
                id ← readRequestAnimationFrameId r;
                cancelAnimationFrame id;;
                setPredictionFound true;;
                setPrediction (className top)
              else mret tt
          end
      end
  end.

(** One run of [loop]; [next] is what [imageAsTensors.next().value]
    resolves to. *)
Definition loop (r : nat) (next : option Tensor) : Js unit :=
  call CallNext;;
  getPrediction r next;;
  id ← requestAnimationFrame r;
  assignRequestAnimationFrameId r id.

Definition handleCameraStream (r : nat) (next : option Tensor) : Js unit :=
  s ← readHooksOf r;
  if negb (predictionFound s) then loop r next else mret tt.

Definition loadNewPrediction : Js unit :=
  setPrediction "";;
  setPredictionFound false.

(** The cleanup the second effect of render [r] returns. *)
Definition cleanup (r : nat) : Js unit :=
  id ← readRequestAnimationFrameId r;
  cancelAnimationFrame id.

(** ** What [App] returns (App.js, lines 163-216) *)

Inductive Handler : Type :=
| PressLoadNewPrediction
| ReadyHandleCameraStream.

Inductive Element : Type :=
| View (style : string) (children : list Element)
| ScrollView (children : list Element)
| Text (style : string) (content : string)
| Button (title : string) (onPress : Handler)
| ActivityIndicator
| TensorCamera (onReady : Handler).

Definition showPredictionView (s : State) : Element :=
  View "translationView"
    [ if predictionFound s then
        View ""
          [ ScrollView [ Text "wordTextField" (prediction s) ];
            Button "Check new prediction" PressLoadNewPrediction ]
      else ActivityIndicator ].

Definition renderCameraView : Element :=
  View "cameraView" [ TensorCamera ReadyHandleCameraStream ].

Definition body (s : State) : Element :=
  View "body"
    [ if predictionFound s then showPredictionView s else renderCameraView ].

Definition App (s : State) : Element :=
  View "container"
    [ View "header" [ Text "title" "My Pictionary" ];
      body s ].

(** The prediction view as it appears on screen: the label and the reset
    button. *)
Definition labelAndReset (label : string) : Element :=
  View "translationView"
    [ View ""
        [ ScrollView [ Text "wordTextField" label ];
          Button "Check new prediction" PressLoadNewPrediction ] ].

(** ** The component over time *)

(** What the environment does to the component.  [cameraWithTensors] is
    called by every render, so the camera on screen is the one of the
    latest render and its [onReady] is that render's [handleCameraStream].
    A pending animation frame fires whether or not the component is still
    mounted. *)
Inductive Event : Type :=
| PermissionsResolved (status : string)       (* Camera.requestPermissionsAsync() *)
| TfReady                                     (* tf.ready() *)
| MobilenetLoaded (model : Model)             (* mobilenet.load() *)
| CameraReady (next : option Tensor)          (* onReady of the camera on screen *)
| AnimationFrame (id : Z) (next : option Tensor)
| PressCheckNewPrediction
| Unmount.

(** The first render, with both effects run: the first starts its async
    function unless [frameworkReady], the second registers the cleanup of
    this render under the dependency value it read. *)
Definition mount : World :=
  let first := mkRender initialState 0 in
  {| hooks := initialState;
     dirty := false;
     renders := [first];
     scheduled := ∅;
     nextFrameId := 1;
     initEffect := if negb (frameworkReady initialState) then AwaitPermissions
                   else InitSkipped;
     unmountEffect := (0%nat, requestAnimationFrameId first);
     mounted := true;
     calls := [] |}.

(** A handler runs to its end before the next event: the promises it
    awaits are taken to resolve at once.  Nothing awaits its own promise,
    so a throw inside it ends it and is reported, nothing more.  If it
    called a setter and the component is still mounted, React then calls
    [App] again. *)
Definition settle (c : Js unit) (w : World) : World :=
  let w' :=
    match c w with
    | (Normal _, w') => w'
    | (Threw _, w') => logCall UnhandledRejection w'
    end in
  if dirty w' && mounted w' then rerender w' else w'.

Definition step (e : Event) (w : World) : World :=
  match e with
  | PermissionsResolved status =>
      match initEffect w with
      | AwaitPermissions =>
          settle (setHasPermission (String.eqb status "granted"))
                 (withInitEffect (AwaitTfReady status) w)
      | _ => w
      end
  | TfReady =>
      match initEffect w with
      | AwaitTfReady status => withInitEffect (AwaitMobilenet status) w
      | _ => w
      end
  | MobilenetLoaded model =>
      match initEffect w with
      | AwaitMobilenet status =>
          settle (setMobilenetModel (Some model);; setFrameworkReady true)
                 (withInitEffect (InitDone status) w)
      | _ => w
      end
  | CameraReady next =>
      if mounted w && negb (predictionFound (captured (closure (latest w) w)))
      then settle (handleCameraStream (latest w) next) w
      else w
  | AnimationFrame id next =>
      match scheduled w !! id with
      | Some r => settle (loop r next) (withScheduled (delete id) w)
      | None => w
      end
  | PressCheckNewPrediction =>
      if mounted w && predictionFound (captured (closure (latest w) w))
      then settle loadNewPrediction w
      else w
  | Unmount =>
      if mounted w
      then settle (cleanup (fst (unmountEffect w))) (withMounted false w)
      else w
  end.

Definition run (events : list Event) (w : World) : World :=
  fold_left (fun w e => step e w) events w.

Definition reachable (w : World) : Prop :=
  exists events : list Event, w = run events mount.

(** ** Sample values *)

(** The first entry of the example in the comment above [getPrediction]. *)
Definition joystick : Prediction :=
  mkPrediction "joystick" 0.8070220947265625.

Definition monitor : Prediction :=
  mkPrediction "monitor" 0.04016926884651184.

Definition classifier (answer : option (list Prediction)) : Model :=
  mkModel (fun _ _ => answer).

Definition frame0 : Tensor := TensorRef 0.
Definition frame1 : Tensor := TensorRef 1.

(** A model that is sure of a joystick, and one that is not sure of
    anything. *)
Definition sureModel : Model := classifier (Some [joystick]).
Definition unsureModel : Model := classifier (Some [monitor; joystick]).

(** The component once the first effect is through, with [model] loaded. *)
Definition started (model : Model) : World :=
  run [PermissionsResolved "granted"; TfReady; MobilenetLoaded model] mount.

(** ** Sample worlds *)

(** The component with a prediction on screen. *)
Definition found : World :=
  run [CameraReady (Some frame0)] (started sureModel).

(** The component polling: the camera is ready, the model is not sure, and
    the [loop] of the render on screen has asked for its next frame. *)
Definition polling : World :=
  run [CameraReady (Some frame0)] (started unsureModel).

Definition unmounted : World := step Unmount polling.

(** The camera is ready before the permission request and the model load
    have come back, and delivers no frame yet; then they come back. *)
Definition earlyCamera : World :=
  run [CameraReady None; PermissionsResolved "granted"; TfReady;
       MobilenetLoaded sureModel] mount.

(** ** Vocabulary of the statements *)

(** The hooks in [named] are the whole state: two states that agree on
    them are the same state. *)
Definition determineState (named : list Hook) : Prop :=
  forall s1 s2 : State,
    (forall h : Hook, In h named -> hookValue h s1 = hookValue h s2) ->
    s1 = s2.

(** Permission flag, classifier handle, current prediction. *)
Definition permissionModelPrediction : list Hook :=
  [HookHasPermission; HookMobilenetModel; HookPrediction].

(** What the first effect has done to [hasPermission] at each of its
    stages. *)
Definition permissionInvariant (w : World) : Prop :=
  match initEffect w with
  | InitSkipped | AwaitPermissions => hasPermission (hooks w) = None
  | AwaitTfReady status | AwaitMobilenet status | InitDone status =>
      hasPermission (hooks w) = Some (String.eqb status "granted")
  end.

(** A statement that touches neither of the two effects nor the flag. *)
Definition keepsEffects (c : Js unit) : Prop :=
  forall w : World,
    initEffect (snd (c w)) = initEffect w /\
    hasPermission (hooks (snd (c w))) = hasPermission (hooks w) /\
    unmountEffect (snd (c w)) = unmountEffect w.

(** The cleanup React holds is the one of the first render, registered
    under the value 0. *)
Definition cleanupOfFirstRender (w : World) : Prop :=
  unmountEffect w = (0%nat, 0).

(** Both effects are as the first render left them. *)
Definition effectsInvariant (w : World) : Prop :=
  permissionInvariant w /\ cleanupOfFirstRender w.

(** The timer and the variable of the first render: ids start at 1 and
    are handed out in order, and the id the first render's variable holds
    is pending, if at all, for the loop of the first render. *)
Definition timerInvariant (w : World) : Prop :=
  1 <= nextFrameId w /\
  (forall (id : Z) (r : nat),
      scheduled w !! id = Some r -> 1 <= id < nextFrameId w) /\
  0 <= requestAnimationFrameId (closure 0 w) < nextFrameId w /\
  (forall r : nat,
      scheduled w !! requestAnimationFrameId (closure 0 w) = Some r ->
      r = 0%nat).

(** ** The camera properties (App.js, lines 43-44 and 189-200) *)

Record Dims : Type := mkDims {
  width : Z;
  height : Z
}.

Definition textureDims (os : string) : Dims :=
  if String.eqb os "ios" then mkDims 1080 1920 else mkDims 1600 1200.

Definition tensorDims : Dims := mkDims 152 200.

Record CameraProps : Type := mkCameraProps {
  zoom : Z;
  cameraTextureHeight : Z;
  cameraTextureWidth : Z;
  resizeHeight : Z;
  resizeWidth : Z;
  resizeDepth : Z;
  autorender : bool
}.

Definition cameraProps (os : string) : CameraProps :=
  {| zoom := 0;
     cameraTextureHeight := height (textureDims os);
     cameraTextureWidth := width (textureDims os);
     resizeHeight := height tensorDims;
     resizeWidth := width tensorDims;
     resizeDepth := 3;
     autorender := true |}.

(** ** Looking into the screen and the call log *)

(** The spinner of [showPredictionView] is somewhere in the element. *)
Fixpoint showsActivityIndicator (e : Element) : bool :=
  match e with
  | View _ children => existsb showsActivityIndicator children
  | ScrollView children => existsb showsActivityIndicator children
  | Text _ _ => false
  | Button _ _ => false
  | ActivityIndicator => true
  | TensorCamera _ => false
  end.




Definition countCalls (p : Call -> bool) (l : list Call) : nat :=
  length (List.filter p l).

(** The calls of the three setters only the first effect uses. *)
Definition isInitCall (c : Call) : bool :=
  match c with
  | CallSetHasPermission _ | CallSetMobilenetModel | CallSetFrameworkReady _ => true
  | _ => false
  end.

Definition initCalls (w : World) : list Call :=
  List.filter isInitCall (calls w).

(** The setter calls the first effect has made by each of its stages. *)
Definition initCallsAt (i : InitStage) : list Call :=
  match i with
  | InitSkipped | AwaitPermissions => []
  | AwaitTfReady status | AwaitMobilenet status =>
      [CallSetHasPermission (String.eqb status "granted")]
  | InitDone status =>
      [CallSetHasPermission (String.eqb status "granted");
       CallSetMobilenetModel; CallSetFrameworkReady true]
  end.

(** [label] is the class name of the head of what [model] answered, with a
    probability above 0.3, for a tensor that [log] shows was classified. *)
Definition accepted (model : Model) (log : list Call) (label : string) : Prop :=
  exists (t : Tensor) (top : Prediction) (rest : list Prediction),
    classify model t 1 = Some (top :: rest) /\
    (0.3 <? probability top)%float = true /\
    label = className top /\
    In (CallClassify t 1) log.

(** What a closure of a render may have done to the world by the time it
    ends. *)
Definition handled (w w' : World) : Prop :=
  initEffect w' = initEffect w /\
  hasPermission (hooks w') = hasPermission (hooks w) /\
  mobilenetModel (hooks w') = mobilenetModel (hooks w) /\
  frameworkReady (hooks w') = frameworkReady (hooks w) /\
  (forall r : nat, captured (closure r w') = captured (closure r w)) /\
  (exists made : list Call,
      calls w' = calls w ++ made /\ List.filter isInitCall made = []) /\
  ((predictionFound (hooks w') = predictionFound (hooks w) /\
    prediction (hooks w') = prediction (hooks w)) \/
   (predictionFound (hooks w') = false /\ prediction (hooks w') = "") \/
   (predictionFound (hooks w') = true /\
    exists (r : nat) (model : Model),
      mobilenetModel (captured (closure r w)) = Some model /\
      accepted model (calls w') (prediction (hooks w')))).

Definition componentInvariant (w : World) : Prop :=
  (forall (r : nat) (model : Model),
      mobilenetModel (captured (closure r w)) = Some model ->
      mobilenetModel (hooks w) = Some model) /\
  match initEffect w with
  | InitDone _ =>
      frameworkReady (hooks w) = true /\ is_Some (mobilenetModel (hooks w))
  | _ => frameworkReady (hooks w) = false /\ mobilenetModel (hooks w) = None
  end /\
  (predictionFound (hooks w) = true ->
   exists model : Model,
     mobilenetModel (hooks w) = Some model /\
     accepted model (calls w) (prediction (hooks w))) /\
  (predictionFound (hooks w) = false -> prediction (hooks w) = "") /\
  initCalls w = initCallsAt (initEffect w).

(** No render is owed to a mounted component between two events. *)
Definition rendered (w : World) : Prop :=
  dirty w && mounted w = false.

(** ** Tactics *)

(** Unfold a closure down to the updates of the world it makes. *)
Ltac run_js :=
  cbv [getPrediction loop handleCameraStream loadNewPrediction cleanup
       setPredictionFound setHasPermission setPrediction setMobilenetModel
       setFrameworkReady cancelAnimationFrame requestAnimationFrame
       assignRequestAnimationFrameId readHooksOf readRequestAnimationFrameId
       call effect throw mbind mret Js_bind Js_ret];
  cbn [fst snd].

(** Case analysis on whatever a statement branches on. *)
Ltac split_matches :=
  repeat match goal with
         | |- context [match ?x with _ => _ end] => destruct x; cbn
         end.

(** The four ways through [getPrediction] on a tensor: no model; an answer
    with a head, above the threshold or not; an empty or null answer. *)
Ltac split_getPrediction r t w :=
  run_js;
  destruct (mobilenetModel (captured (closure r w))) as [?model |] eqn:?Hmodel;
  cbn [fst snd];
  [ destruct (classify model t 1) as [[| ?top ?rest] |] eqn:?Hanswer;
    cbn [fst snd];
    [ | destruct (0.3 <? probability top)%float eqn:?Habove; cbn [fst snd] | ]
  | ].

(** The calls made, as a suffix of the log. *)
Ltac made_calls :=
  rewrite <- ?app_assoc; cbn [app];
  eexists; split; [reflexivity | reflexivity].

(** * Properties *)

(** ** getPrediction *)

(** C1: when a frame is classified, the classifier is called once, with
    topk 1, and only the head of its answer decides: the probability of the
    head is above 0.3 exactly when [getPrediction] cancels the stored frame
    id, calls [setPredictionFound(true)] and [setPrediction] with the head's
    class name, after which the hooks hold these values; otherwise it calls
    nothing more and the hooks are as before. *)
Theorem getPrediction_accepts_top_above_threshold :
  forall (r : nat) (t : Tensor) (model : Model)
         (top : Prediction) (rest : list Prediction) (w : World),
    mobilenetModel (captured (closure r w)) = Some model ->
    classify model t 1 = Some (top :: rest) ->
    let w' := snd (getPrediction r (Some t) w) in
    fst (getPrediction r (Some t) w) = Normal tt /\
    calls w' =
      calls w ++ CallClassify t 1 ::
        (if (0.3 <? probability top)%float
         then [CallCancelAnimationFrame (requestAnimationFrameId (closure r w));
               CallSetPredictionFound true;
               CallSetPrediction (className top)]
         else []) /\
    hooks w' =
      (if (0.3 <? probability top)%float
       then mkState true (hasPermission (hooks w)) (className top)
                    (mobilenetModel (hooks w)) (frameworkReady (hooks w))
       else hooks w).
Proof.
  intros r t model top rest w Hmodel Hclassify.
  run_js. rewrite Hmodel. cbn [fst snd]. rewrite Hclassify.
  destruct (0.3 <? probability top)%float; cbn.
  - repeat split. rewrite <- !app_assoc. reflexivity.
  - repeat split.
Qed.

Lemma getPrediction_accepts_top_above_threshold_witness :
  fst (getPrediction 2 (Some frame0) (started sureModel)) = Normal tt /\
  calls (snd (getPrediction 2 (Some frame0) (started sureModel))) =
    calls (started sureModel) ++
      [CallClassify frame0 1; CallCancelAnimationFrame 0;
       CallSetPredictionFound true; CallSetPrediction "joystick"] /\
  hooks (snd (getPrediction 2 (Some frame0) (started sureModel))) =
    mkState true (Some true) "joystick" (Some sureModel) true.
Proof.
  apply (getPrediction_accepts_top_above_threshold
           2 frame0 sureModel joystick [] (started sureModel));
    reflexivity.
Defined.

(** The comparison is strict, and a probability that is not a number is not
    above the threshold. *)
Example threshold_is_strict :
  (0.3 <? 0.3)%float = false /\
  (0.3 <? 0.30000000000000004)%float = true /\
  (0.3 <? nan)%float = false.
Proof. repeat split. Qed.

(** C8: [getPrediction] leaves everything as it was when the tensor is
    missing, when the classifier answers null or an empty array, and when
    the probability of the top result is not above 0.3: it returns
    normally, and the hooks, every render's [requestAnimationFrameId] and
    the pending animation frames are unchanged. *)
Theorem getPrediction_failure_changes_nothing :
  forall (r : nat) (tensor : option Tensor) (w : World),
    tensor = None \/
    (exists t model,
        tensor = Some t /\
        mobilenetModel (captured (closure r w)) = Some model /\
        (classify model t 1 = None \/ classify model t 1 = Some [])) \/
    (exists t model top rest,
        tensor = Some t /\
        mobilenetModel (captured (closure r w)) = Some model /\
        classify model t 1 = Some (top :: rest) /\
        (0.3 <? probability top)%float = false) ->
    let w' := snd (getPrediction r tensor w) in
    fst (getPrediction r tensor w) = Normal tt /\
    hooks w' = hooks w /\
    dirty w' = dirty w /\
    renders w' = renders w /\
    scheduled w' = scheduled w /\
    nextFrameId w' = nextFrameId w.
Proof.
  intros r tensor w
    [-> | [(t & model & -> & Hmodel & Hanswer)
          | (t & model & top & rest & -> & Hmodel & Hanswer & Hlow)]].
  - cbn. repeat split.
  - run_js. rewrite Hmodel. cbn [fst snd].
    destruct Hanswer as [-> | ->]; cbn; repeat split.
  - run_js. rewrite Hmodel. cbn [fst snd]. rewrite Hanswer, Hlow.
    cbn. repeat split.
Qed.

Lemma getPrediction_failure_changes_nothing_witness :
  fst (getPrediction 2 (Some frame0) (started unsureModel)) = Normal tt /\
  hooks (snd (getPrediction 2 (Some frame0) (started unsureModel))) =
    hooks (started unsureModel) /\
  dirty (snd (getPrediction 2 (Some frame0) (started unsureModel))) =
    dirty (started unsureModel) /\
  renders (snd (getPrediction 2 (Some frame0) (started unsureModel))) =
    renders (started unsureModel) /\
  scheduled (snd (getPrediction 2 (Some frame0) (started unsureModel))) =
    scheduled (started unsureModel) /\
  nextFrameId (snd (getPrediction 2 (Some frame0) (started unsureModel))) =
    nextFrameId (started unsureModel).
Proof.
  apply (getPrediction_failure_changes_nothing
           2 (Some frame0) (started unsureModel)).
  right. right. exists frame0, unsureModel, monitor, [joystick].
  repeat split; reflexivity.
Defined.

(** ** loadNewPrediction *)

(** C3: in every world, after [loadNewPrediction] the prediction is the
    empty string and [predictionFound] is false, the other hooks are as
    they were, and the body shows the camera view; run on the initial hook
    values it leaves them as they are, and run a second time it changes
    no hook. *)
Theorem loadNewPrediction_restores_initial_prediction :
  forall w : World,
    let w' := snd (loadNewPrediction w) in
    fst (loadNewPrediction w) = Normal tt /\
    prediction (hooks w') = "" /\
    predictionFound (hooks w') = false /\
    hooks w' = mkState false (hasPermission (hooks w)) ""
                       (mobilenetModel (hooks w)) (frameworkReady (hooks w)) /\
    body (hooks w') = View "body" [renderCameraView] /\
    hooks (snd (loadNewPrediction (withHooks (fun _ => initialState) w))) =
      initialState /\
    hooks (snd (loadNewPrediction w')) = hooks w'.
Proof.
  intros w. run_js. cbn. repeat split.
Qed.

(** ** The rendered screen *)

(** C7: the body shows the prediction view, that is the current label and
    the reset button, exactly when [predictionFound] is true, and the
    camera view exactly when it is false. *)
Theorem body_flips_on_predictionFound :
  forall s : State,
    (predictionFound s = true <->
     body s = View "body" [labelAndReset (prediction s)]) /\
    (predictionFound s = false <->
     body s = View "body" [renderCameraView]) /\
    App s = View "container" [View "header" [Text "title" "My Pictionary"]; body s].
Proof.
  intros s. unfold App, body, showPredictionView, labelAndReset, renderCameraView.
  destruct (predictionFound s); repeat split;
    first [ reflexivity | discriminate | intros _; reflexivity ].
Qed.

(** C10: two states that agree on every hook but [hasPermission] render
    the same screen. *)
Theorem App_ignores_hasPermission :
  forall s1 s2 : State,
    predictionFound s1 = predictionFound s2 ->
    prediction s1 = prediction s2 ->
    mobilenetModel s1 = mobilenetModel s2 ->
    frameworkReady s1 = frameworkReady s2 ->
    App s1 = App s2.
Proof.
  intros s1 s2 Hfound Hlabel _ _.
  unfold App, body, showPredictionView.
  rewrite Hfound, Hlabel. reflexivity.
Qed.

Lemma App_ignores_hasPermission_witness :
  App (mkState false (Some false) "" (Some sureModel) true) =
  App (mkState false (Some true) "" (Some sureModel) true).
Proof.
  apply (App_ignores_hasPermission
           (mkState false (Some false) "" (Some sureModel) true)
           (mkState false (Some true) "" (Some sureModel) true));
    reflexivity.
Defined.

(** ** The first effect and the permission flag *)

Lemma rerender_keeps_permission (w : World) :
  initEffect (rerender w) = initEffect w /\
  hasPermission (hooks (rerender w)) = hasPermission (hooks w).
Proof.
  unfold rerender. destruct (unmountEffect w) as [owner dep].
  destruct (dep =? _)%Z; cbn; split; reflexivity.
Qed.

Lemma rerender_keeps_cleanup (w : World) :
  cleanupOfFirstRender w -> cleanupOfFirstRender (rerender w).
Proof.
  unfold cleanupOfFirstRender, rerender. intros Hw. rewrite Hw. reflexivity.
Qed.

Lemma settle_keeps_effects (c : Js unit) (w : World) :
  keepsEffects c ->
  initEffect (settle c w) = initEffect w /\
  hasPermission (hooks (settle c w)) = hasPermission (hooks w) /\
  (cleanupOfFirstRender w -> cleanupOfFirstRender (settle c w)).
Proof.
  intros Hc. unfold settle. destruct (Hc w) as (Hi & Hp & Hu).
  destruct (c w) as [[a | e] w']; cbn [fst snd] in *;
    match goal with
    | |- context [if dirty ?x && mounted ?x then _ else _] =>
        destruct (dirty x && mounted x);
        [ destruct (rerender_keeps_permission x) as [-> ->];
          repeat split; try assumption;
          intros Hw; apply rerender_keeps_cleanup;
          unfold cleanupOfFirstRender in *; cbn; congruence
        | repeat split; try assumption;
          unfold cleanupOfFirstRender; cbn; congruence ]
    end.
Qed.

Lemma getPrediction_keeps_effects (r : nat) (tensor : option Tensor) :
  keepsEffects (getPrediction r tensor).
Proof.
  intros w. destruct tensor as [t |]; run_js; [| repeat split].
  split_matches; repeat split.
Qed.

Lemma loop_keeps_effects (r : nat) (next : option Tensor) :
  keepsEffects (loop r next).
Proof.
  intros w. unfold loop.
  destruct (getPrediction_keeps_effects r next (logCall CallNext w))
    as (Hi & Hp & Hu).
  cbv [mbind Js_bind call effect]. cbn [fst snd] in *.
  destruct (getPrediction r next (logCall CallNext w)) as [[[] | e] w'];
    cbn [fst snd] in *; [| repeat split; assumption].
  run_js. split_matches; repeat split; assumption.
Qed.

Lemma handleCameraStream_keeps_effects (r : nat) (next : option Tensor) :
  keepsEffects (handleCameraStream r next).
Proof.
  intros w. unfold handleCameraStream.
  cbv [mbind Js_bind readHooksOf mret Js_ret].
  destruct (negb _); [apply loop_keeps_effects | repeat split].
Qed.

Lemma loadNewPrediction_keeps_effects : keepsEffects loadNewPrediction.
Proof. intros w. run_js. repeat split. Qed.

Lemma cleanup_keeps_effects (r : nat) : keepsEffects (cleanup r).
Proof. intros w. run_js. repeat split. Qed.

Lemma step_effectsInvariant (e : Event) (w : World) :
  effectsInvariant w -> effectsInvariant (step e w).
Proof.
  unfold effectsInvariant, permissionInvariant. intros [Hw Hu].
  destruct e as [status | | model | next | id next | |]; cbn [step].
  - destruct (initEffect w) eqn:Hstage; rewrite ?Hstage; try (split; assumption).
    unfold settle. run_js. cbn.
    destruct (mounted w); cbn; [| split; [reflexivity | exact Hu]].
    match goal with
    | |- context [rerender ?x] =>
        destruct (rerender_keeps_permission x) as [Hi Hp];
        pose proof (rerender_keeps_cleanup x Hu) as Hc
    end.
    cbn in Hi, Hp. rewrite Hi, Hp. split; [reflexivity | exact Hc].
  - destruct (initEffect w) eqn:Hstage; rewrite ?Hstage; split; assumption.
  - destruct (initEffect w) eqn:Hstage; rewrite ?Hstage; try (split; assumption).
    unfold settle. run_js. cbn.
    destruct (mounted w); cbn; [| split; assumption].
    match goal with
    | |- context [rerender ?x] =>
        destruct (rerender_keeps_permission x) as [Hi Hp];
        pose proof (rerender_keeps_cleanup x Hu) as Hc
    end.
    cbn in Hi, Hp. rewrite Hi, Hp. split; assumption.
  - destruct (mounted w && _); [| split; assumption].
    destruct (settle_keeps_effects _ w
                (handleCameraStream_keeps_effects (latest w) next))
      as (-> & -> & Hc).
    split; [assumption | apply Hc, Hu].
  - destruct (scheduled w !! id) as [r |]; [| split; assumption].
    destruct (settle_keeps_effects _ (withScheduled (delete id) w)
                (loop_keeps_effects r next)) as (-> & -> & Hc).
    split; [assumption | apply Hc, Hu].
  - destruct (mounted w && _); [| split; assumption].
    destruct (settle_keeps_effects _ w loadNewPrediction_keeps_effects)
      as (-> & -> & Hc).
    split; [assumption | apply Hc, Hu].
  - destruct (mounted w); [| split; assumption].
    destruct (settle_keeps_effects _ (withMounted false w)
                (cleanup_keeps_effects (fst (unmountEffect w))))
      as (-> & -> & Hc).
    split; [assumption | apply Hc, Hu].
Qed.

Lemma run_snoc (events : list Event) (e : Event) (w : World) :
  run (events ++ [e]) w = step e (run events w).
Proof. unfold run. rewrite fold_left_app. reflexivity. Qed.

Lemma reachable_effectsInvariant (w : World) :
  reachable w -> effectsInvariant w.
Proof.
  intros [events ->].
  induction events as [| e events IH] using rev_ind.
  - split; reflexivity.
  - rewrite run_snoc. apply step_effectsInvariant, IH.
Qed.

(** C6: in every reachable world in which the first effect has run to its
    end, having got [status] from the permission request, [hasPermission]
    is [status === 'granted']: true exactly when the status is 'granted',
    false for every other status. *)
Theorem hasPermission_iff_granted :
  forall (w : World) (status : string),
    reachable w ->
    initEffect w = InitDone status ->
    hasPermission (hooks w) = Some (String.eqb status "granted") /\
    (hasPermission (hooks w) = Some true <-> status = "granted") /\
    (status <> "granted" -> hasPermission (hooks w) = Some false).
Proof.
  intros w status Hreach Hdone.
  destruct (reachable_effectsInvariant w Hreach) as [Hinv _].
  unfold permissionInvariant in Hinv. rewrite Hdone in Hinv.
  rewrite Hinv. split; [reflexivity |]. split.
  - split.
    + intros [= Heq]. apply String.eqb_eq, Heq.
    + intros ->. reflexivity.
  - intros Hother. apply String.eqb_neq in Hother. rewrite Hother. reflexivity.
Qed.

Lemma hasPermission_iff_granted_witness :
  hasPermission (hooks (started sureModel)) =
    Some (String.eqb "granted" "granted") /\
  (hasPermission (hooks (started sureModel)) = Some true <->
   "granted" = "granted") /\
  ("granted" <> "granted" ->
   hasPermission (hooks (started sureModel)) = Some false).
Proof.
  apply (hasPermission_iff_granted (started sureModel) "granted").
  - exists [PermissionsResolved "granted"; TfReady; MobilenetLoaded sureModel].
    reflexivity.
  - reflexivity.
Defined.

(** Any other status leaves the flag false. *)
Example denied_is_not_granted :
  hasPermission (hooks (step (PermissionsResolved "denied") mount)) = Some false /\
  hasPermission (hooks (step (PermissionsResolved "undetermined") mount)) = Some false.
Proof. split; reflexivity. Qed.

(** ** The state the component owns *)

(** C4: the permission flag, the classifier handle and the prediction
    are not the whole state.  The hooks of the started component and the
    same hooks with [frameworkReady] false agree on all three and are two
    states; and [frameworkReady] is a hook of [App] that is none of the
    three. *)
Lemma three_hooks_do_not_determine_state :
  ~ determineState permissionModelPrediction /\
  ~ (forall h : Hook, In h hooksOfApp -> In h permissionModelPrediction).
Proof.
  split; [| intros Hall; destruct (Hall HookFrameworkReady) as [H | [H | [H | []]]];
            [cbn; tauto | discriminate H ..]].
  intros Hthree.
  specialize (Hthree (mkState false (Some true) "" (Some sureModel) false)
                     (hooks (started sureModel))).
  assert (Hneq : frameworkReady (mkState false (Some true) "" (Some sureModel) false)
                 = frameworkReady (hooks (started sureModel))).
  { f_equal. apply Hthree. intros h [<- | [<- | [<- | []]]]; reflexivity. }
  discriminate Hneq.
Qed.

(** C4: the component owns exactly five hooks, [predictionFound],
    [hasPermission], [prediction], [mobilenetModel] and [frameworkReady].
    They are five different hooks and there is no other; together they are
    the whole state; none of them is determined by the other four; and each
    of them leaves its initial value in some reachable world. *)
Theorem App_owns_five_hooks :
  length hooksOfApp = 5%nat /\
  NoDup hooksOfApp /\
  (forall h : Hook, In h hooksOfApp) /\
  determineState hooksOfApp /\
  (forall h : Hook,
      exists s1 s2 : State,
        hookValue h s1 <> hookValue h s2 /\
        forall k : Hook, k <> h -> hookValue k s1 = hookValue k s2) /\
  (forall h : Hook,
      exists w : World,
        reachable w /\ hookValue h (hooks w) <> hookValue h initialState).
Proof.
  split; [reflexivity |].
  split.
  { unfold hooksOfApp. repeat (apply NoDup_cons; split;
      [rewrite ?list_elem_of_In; cbn; intuition discriminate |]).
    apply NoDup_nil. exact I. }
  split; [intros []; cbn; tauto |].
  split.
  { intros [f1 p1 l1 m1 r1] [f2 p2 l2 m2 r2] Hagree.
    pose proof (Hagree HookPredictionFound) as H1.
    pose proof (Hagree HookHasPermission) as H2.
    pose proof (Hagree HookPrediction) as H3.
    pose proof (Hagree HookMobilenetModel) as H4.
    pose proof (Hagree HookFrameworkReady) as H5.
    cbn in *. rewrite H1, H2, H3, H4, H5 by tauto. reflexivity. }
  split.
  - intros h. destruct h.
    + exists initialState, (mkState true None "" None false).
      split; [discriminate | intros []; cbn; congruence].
    + exists initialState, (mkState false (Some true) "" None false).
      split; [discriminate | intros []; cbn; congruence].
    + exists initialState, (mkState false None "joystick" None false).
      split; [discriminate | intros []; cbn; congruence].
    + exists initialState, (mkState false None "" (Some sureModel) false).
      split; [discriminate | intros []; cbn; congruence].
    + exists initialState, (mkState false None "" None true).
      split; [discriminate | intros []; cbn; congruence].
  - assert (Hstarted : reachable (started sureModel)).
    { exists [PermissionsResolved "granted"; TfReady; MobilenetLoaded sureModel].
      reflexivity. }
    assert (Hfound : reachable found).
    { exists ([PermissionsResolved "granted"; TfReady; MobilenetLoaded sureModel]
              ++ [CameraReady (Some frame0)]).
      rewrite run_snoc. reflexivity. }
    intros []; [exists found | exists (started sureModel) | exists found
               | exists (started sureModel) | exists (started sureModel)];
      (split; [assumption | vm_compute; discriminate]).
Qed.

(** ** The polling loop *)

(** Whatever [getPrediction] did, if it returned, [loop] asks for the next
    animation frame: the last statement of [loop] is not guarded. *)
Lemma loop_requests_next_frame
    (r : nat) (next : option Tensor) (w w1 : World) :
  getPrediction r next (logCall CallNext w) = (Normal tt, w1) ->
  fst (loop r next w) = Normal tt /\
  scheduled (snd (loop r next w)) !! nextFrameId w1 = Some r.
Proof.
  intros Hget. unfold loop.
  cbv [mbind Js_bind call effect]. rewrite Hget.
  cbv [requestAnimationFrame assignRequestAnimationFrameId effect].
  cbn. split; [reflexivity | apply lookup_insert_eq].
Qed.

(** The id [getPrediction] cancels is the one of the callback that is
    running it, which is no longer pending: cancelling it changes no
    pending frame. *)
Lemma cancel_of_running_frame_is_void (id : Z) (w : World) :
  scheduled w !! id = None ->
  scheduled (cancelIn id w) = scheduled w.
Proof. intros Hid. cbn. apply delete_id, Hid. Qed.

(** *** The timer invariant *)

Lemma timer_logCall (c : Call) (w : World) :
  timerInvariant w -> timerInvariant (logCall c w).
Proof. exact (fun H => H). Qed.

Lemma timer_withHooks (f : State -> State) (w : World) :
  timerInvariant w -> timerInvariant (withHooks f w).
Proof. exact (fun H => H). Qed.

Lemma timer_withInitEffect (i : InitStage) (w : World) :
  timerInvariant w -> timerInvariant (withInitEffect i w).
Proof. exact (fun H => H). Qed.

Lemma timer_withMounted (b : bool) (w : World) :
  timerInvariant w -> timerInvariant (withMounted b w).
Proof. exact (fun H => H). Qed.

Lemma timer_delete (id : Z) (w : World) :
  timerInvariant w -> timerInvariant (withScheduled (delete id) w).
Proof.
  intros (Hn & Hids & Hc & Hfirst). unfold timerInvariant, closure. cbn.
  split; [exact Hn |]. split; [| split; [exact Hc |]].
  - intros id' r [_ Hr]%lookup_delete_Some. apply (Hids id' r Hr).
  - intros r [_ Hr]%lookup_delete_Some. apply Hfirst, Hr.
Qed.

Lemma timer_cancelIn (id : Z) (w : World) :
  timerInvariant w -> timerInvariant (cancelIn id w).
Proof. intros Hw. apply timer_delete, timer_logCall, Hw. Qed.

Lemma closure_first_after_render (rs : list Render) (s : State) :
  requestAnimationFrameId (default (mkRender initialState 0) ((rs ++ [mkRender s 0]) !! 0%nat)) =
  requestAnimationFrameId (default (mkRender initialState 0) (rs !! 0%nat)).
Proof. destruct rs; reflexivity. Qed.

Lemma timer_rerender (w : World) :
  timerInvariant w -> timerInvariant (rerender w).
Proof.
  intros Hw.
  assert (Hw1 : timerInvariant
            (mkWorld (hooks w) false (renders w ++ [mkRender (hooks w) 0])
               (scheduled w) (nextFrameId w) (initEffect w) (unmountEffect w)
               (mounted w) (calls w))).
  { unfold timerInvariant, closure in *. cbn.
    rewrite closure_first_after_render. exact Hw. }
  unfold rerender. destruct (unmountEffect w) as [owner dep].
  destruct (dep =? _); [exact Hw1 |].
  apply (timer_cancelIn _ _ Hw1).
Qed.

Lemma timer_request (r : nat) (w : World) :
  timerInvariant w ->
  timerInvariant
    (snd ((id ← requestAnimationFrame r; assignRequestAnimationFrameId r id) w)).
Proof.
  intros (Hn & Hids & Hc & Hfirst).
  cbv [mbind Js_bind requestAnimationFrame assignRequestAnimationFrameId effect].
  cbn [fst snd]. unfold timerInvariant, closure in *. cbn.
  split; [lia |]. split.
  { intros id r' [[<- _] | [_ Hold]]%lookup_insert_Some; [lia |].
    apply Hids in Hold. lia. }
  destruct r as [| r].
  - destruct (renders w !! 0%nat) as [c |] eqn:Hc0.
    + rewrite list_lookup_insert_eq by (eapply lookup_lt_Some, Hc0). cbn.
      split; [lia |]. intros r'. rewrite lookup_insert_eq. congruence.
    + rewrite Hc0 in *. cbn in *. split; [lia |].
      intros r'. rewrite lookup_insert_ne by lia. apply Hfirst.
  - assert (Hsame :
      match renders w !! S r with
      | Some c => <[S r := mkRender (captured c) (nextFrameId w)]> (renders w)
      | None => renders w
      end !! 0%nat = renders w !! 0%nat).
    { destruct (renders w !! S r); [| reflexivity].
      apply list_lookup_insert_ne. discriminate. }
    rewrite Hsame. split; [lia |].
    intros r'. rewrite lookup_insert_ne by lia. apply Hfirst.
Qed.

(** Discharge the invariant through updates that leave the timer alone or
    only drop pending frames. *)
Ltac timer :=
  repeat first
    [ assumption
    | apply timer_withHooks | apply timer_logCall | apply timer_cancelIn
    | apply timer_delete | apply timer_withInitEffect | apply timer_withMounted ].

Lemma timer_getPrediction (r : nat) (tensor : option Tensor) (w : World) :
  timerInvariant w -> timerInvariant (snd (getPrediction r tensor w)).
Proof.
  intros Hw. destruct tensor as [t |]; run_js; [| assumption].
  repeat match goal with
         | |- context [match ?x with _ => _ end] => destruct x; cbn [fst snd]
         end; timer.
Qed.

Lemma timer_loop (r : nat) (next : option Tensor) (w : World) :
  timerInvariant w -> timerInvariant (snd (loop r next w)).
Proof.
  intros Hw. unfold loop.
  pose proof (timer_getPrediction r next (logCall CallNext w)
                (timer_logCall _ _ Hw)) as Hget.
  cbv [mbind Js_bind call effect] in *. cbn [fst snd] in *.
  destruct (getPrediction r next (logCall CallNext w)) as [[[] | e] w'];
    cbn [fst snd] in *; [| assumption].
  apply (timer_request r w' Hget).
Qed.

Lemma timer_settle (c : Js unit) (w : World) :
  timerInvariant (snd (c w)) -> timerInvariant (settle c w).
Proof.
  intros Hc. unfold settle.
  destruct (c w) as [[a | e] w']; cbn [fst snd] in *;
    match goal with
    | |- context [if ?b then _ else _] => destruct b
    end; try apply timer_rerender; timer.
Qed.

Lemma timer_step (e : Event) (w : World) :
  timerInvariant w -> timerInvariant (step e w).
Proof.
  intros Hw.
  destruct e as [status | | model | next | id next | |]; cbn [step].
  - destruct (initEffect w); try assumption.
    apply timer_settle. run_js. timer.
  - destruct (initEffect w); timer.
  - destruct (initEffect w); try assumption.
    apply timer_settle. run_js. timer.
  - destruct (mounted w && _); [| assumption].
    apply timer_settle. unfold handleCameraStream.
    cbv [mbind Js_bind readHooksOf mret Js_ret].
    destruct (negb _); [apply timer_loop, Hw | exact Hw].
  - destruct (scheduled w !! id); [| assumption].
    apply timer_settle, timer_loop, timer_delete, Hw.
  - destruct (mounted w && _); [| assumption].
    apply timer_settle. run_js. timer.
  - destruct (mounted w); [| assumption].
    apply timer_settle. run_js. timer.
Qed.

Lemma reachable_timerInvariant (w : World) :
  reachable w -> timerInvariant w.
Proof.
  intros [events ->].
  induction events as [| e events IH] using rev_ind.
  - unfold timerInvariant. cbn.
    split; [lia |]. split; [| split; [lia |]].
    + intros id r. rewrite lookup_empty. discriminate.
    + intros r. rewrite lookup_empty. discriminate.
  - rewrite run_snoc. apply timer_step, IH.
Qed.

(** X17: the cleanup at unmount cancels no frame of a loop that a render
    other than the first one started. *)
Lemma unmount_spares_later_renders (w : World) (id : Z) (r : nat) :
  reachable w ->
  mounted w = true ->
  scheduled w !! id = Some r ->
  r <> 0%nat ->
  mounted (step Unmount w) = false /\
  scheduled (step Unmount w) !! id = Some r.
Proof.
  intros Hreach Hmounted Hid Hr.
  destruct (reachable_effectsInvariant w Hreach) as [_ Hclean].
  destruct (reachable_timerInvariant w Hreach) as (_ & _ & _ & Hfirst).
  cbn [step]. rewrite Hmounted. red in Hclean. rewrite Hclean.
  unfold settle. run_js. cbn.
  rewrite andb_false_r. cbn. split; [reflexivity |].
  apply lookup_delete_Some. split; [| exact Hid].
  intros <-. apply Hr, Hfirst, Hid.
Qed.

(** X18: when a pending frame fires and [getPrediction] returns, the loop
    has a frame pending again, whatever [predictionFound] is. *)
Lemma fired_loop_asks_again
    (w w1 : World) (id : Z) (r : nat) (next : option Tensor) :
  reachable w ->
  scheduled w !! id = Some r ->
  getPrediction r next (logCall CallNext (withScheduled (delete id) w))
    = (Normal tt, w1) ->
  scheduled (step (AnimationFrame id next) w) !! nextFrameId w1 = Some r.
Proof.
  intros Hreach Hid Hget.
  destruct (reachable_effectsInvariant w Hreach) as [_ Hclean].
  cbn [step]. rewrite Hid.
  destruct (loop_requests_next_frame r next _ w1 Hget) as [Hnormal Hnext].
  destruct (loop_keeps_effects r next (withScheduled (delete id) w))
    as (_ & _ & Hu).
  unfold settle.
  destruct (loop r next (withScheduled (delete id) w)) as [[[] | e] w'];
    cbn [fst snd] in *; [| discriminate].
  destruct (dirty w' && mounted w'); [| exact Hnext].
  unfold rerender. rewrite Hu. cbn. red in Hclean. rewrite Hclean. cbn.
  exact Hnext.
Qed.

(** C2: once the sure model has classified the first frame the prediction
    is found, yet the loop has frame 1 pending: the cancel inside
    [getPrediction] named id 0, and [loop] asked for a frame after it.
    When frame 1 fires the loop pulls the next tensor, calls the classifier
    again and asks for one more frame; with no tensor to pull it still runs
    and asks for one more. *)
Theorem polling_continues_after_prediction_found :
  predictionFound (hooks found) = true /\
  prediction (hooks found) = "joystick" /\
  scheduled found !! 1 = Some 2%nat /\
  calls (step (AnimationFrame 1 (Some frame1)) found) =
    calls found ++
      [CallNext; CallClassify frame1 1; CallCancelAnimationFrame 1;
       CallSetPredictionFound true; CallSetPrediction "joystick";
       CallRequestAnimationFrame 2] /\
  calls (step (AnimationFrame 1 None) found) =
    calls found ++ [CallNext; CallRequestAnimationFrame 2] /\
  scheduled (step (AnimationFrame 1 None) found) !! 2 = Some 2%nat.
Proof. vm_compute. repeat split. Qed.

(** C5: the loop of render 2 has frame 1 pending when the component
    unmounts; the cleanup cancels id 0, the value of the first render's
    variable, frame 1 stays pending, and when it fires the loop runs after
    the unmount: it pulls a tensor, calls the classifier and asks for the
    next frame. *)
Theorem loop_runs_after_unmount :
  scheduled polling !! 1 = Some 2%nat /\
  map requestAnimationFrameId (renders polling) = [0; 0; 1] /\
  mounted unmounted = false /\
  calls unmounted = calls polling ++ [CallCancelAnimationFrame 0] /\
  scheduled unmounted !! 1 = Some 2%nat /\
  calls (step (AnimationFrame 1 (Some frame1)) unmounted) =
    calls unmounted ++
      [CallNext; CallClassify frame1 1; CallRequestAnimationFrame 2].
Proof. vm_compute. repeat split. Qed.

(** X16: in every reachable world the cleanup that runs at unmount is the
    one of the first render, registered under the value 0: it reads that
    render's variable. *)
Lemma reachable_cleanup_of_first_render (w : World) :
  reachable w -> unmountEffect w = (0%nat, 0).
Proof. intros Hw. apply (reachable_effectsInvariant w Hw). Qed.

(** A closure whose render captured no model throws on a tensor. *)
Lemma getPrediction_without_model (r : nat) (t : Tensor) (w : World) :
  mobilenetModel (captured (closure r w)) = None ->
  getPrediction r (Some t) w = (Threw TypeError, w).
Proof. intros Hnull. run_js. rewrite Hnull. reflexivity. Qed.

(** C9: in the freshly mounted component the camera view is on screen
    and the model is null.  When the camera is ready with a tensor,
    [getPrediction] passes its tensor guard and throws a TypeError at
    [mobilenetModel.classify]; the handler dies with it.  A loop started
    that early throws in the same way on its first tensor even after the
    model has been loaded, since its render captured null. *)
Theorem getPrediction_dereferences_null_model :
  body (hooks mount) = View "body" [renderCameraView] /\
  mobilenetModel (captured (closure 0 mount)) = None /\
  fst (getPrediction 0 (Some frame0) mount) = Threw TypeError /\
  calls (step (CameraReady (Some frame0)) mount) =
    [CallNext; UnhandledRejection] /\
  mobilenetModel (hooks earlyCamera) = Some sureModel /\
  scheduled earlyCamera !! 1 = Some 0%nat /\
  calls (step (AnimationFrame 1 (Some frame0)) earlyCamera) =
    calls earlyCamera ++ [CallNext; UnhandledRejection].
Proof. vm_compute. repeat split. Qed.

(** * More of the component *)

(** ** Sample worlds are reachable *)

Lemma reachable_started (model : Model) : reachable (started model).
Proof.
  exists [PermissionsResolved "granted"; TfReady; MobilenetLoaded model].
  reflexivity.
Qed.

Lemma reachable_found : reachable found.
Proof.
  exists ([PermissionsResolved "granted"; TfReady; MobilenetLoaded sureModel]
          ++ [CameraReady (Some frame0)]).
  rewrite run_snoc. reflexivity.
Qed.

Lemma reachable_polling : reachable polling.
Proof.
  exists ([PermissionsResolved "granted"; TfReady; MobilenetLoaded unsureModel]
          ++ [CameraReady (Some frame0)]).
  rewrite run_snoc. reflexivity.
Qed.

(** ** getPrediction on every input *)


(** [getPrediction] leaves the renders and the id counter alone and adds no
    pending frame. *)
Lemma getPrediction_timer (r : nat) (tensor : option Tensor) (w : World) :
  renders (snd (getPrediction r tensor w)) = renders w /\
  nextFrameId (snd (getPrediction r tensor w)) = nextFrameId w /\
  (forall (id : Z) (r' : nat),
      scheduled (snd (getPrediction r tensor w)) !! id = Some r' ->
      scheduled w !! id = Some r').
Proof.
  destruct tensor as [t |]; [| cbn; tauto].
  split_getPrediction r t w; cbn; repeat split; try tauto.
  intros id r' [_ Hold]%lookup_delete_Some. exact Hold.
Qed.

(** X2: whatever its input, [getPrediction] assigns no render's
    [requestAnimationFrameId], takes no id from the timer, touches neither
    effect nor [hasPermission], [mobilenetModel], [frameworkReady]; the
    only pending frame it can drop is the one its own render's variable
    names; and the only calls it makes are [classify] with topk 1, that
    cancel, [setPredictionFound(true)] and [setPrediction]. *)
Theorem getPrediction_footprint :
  forall (r : nat) (tensor : option Tensor) (w : World),
    let w' := snd (getPrediction r tensor w) in
    renders w' = renders w /\
    nextFrameId w' = nextFrameId w /\
    initEffect w' = initEffect w /\
    unmountEffect w' = unmountEffect w /\
    mounted w' = mounted w /\
    hasPermission (hooks w') = hasPermission (hooks w) /\
    mobilenetModel (hooks w') = mobilenetModel (hooks w) /\
    frameworkReady (hooks w') = frameworkReady (hooks w) /\
    (scheduled w' = scheduled w \/
     scheduled w' =
       delete (requestAnimationFrameId (closure r w)) (scheduled w)) /\
    (forall c : Call,
        In c (calls w') ->
        In c (calls w) \/
        match c with
        | CallClassify _ topk => topk = 1%nat
        | CallCancelAnimationFrame id =>
            id = requestAnimationFrameId (closure r w)
        | CallSetPredictionFound b => b = true
        | CallSetPrediction _ => True
        | _ => False
        end).
Proof.
  intros r tensor w. destruct tensor as [t |]; [| cbn; tauto].
  split_getPrediction r t w; cbn; repeat split; try tauto;
    intros c Hc; rewrite ?in_app_iff in Hc; cbn in Hc;
    intuition (subst; auto).
Qed.

(** X3: [getPrediction] works from what its render captured: whatever
    the hooks have become since, it completes the same way and makes the
    same calls. *)
Theorem getPrediction_works_from_captured_values :
  forall (r : nat) (tensor : option Tensor) (f : State -> State) (w : World),
    fst (getPrediction r tensor (withHooks f w)) =
      fst (getPrediction r tensor w) /\
    exists made : list Call,
      calls (snd (getPrediction r tensor (withHooks f w))) = calls w ++ made /\
      calls (snd (getPrediction r tensor w)) = calls w ++ made.
Proof.
  intros r tensor f w. destruct tensor as [t |].
  - run_js. change (closure r (withHooks f w)) with (closure r w).
    destruct (mobilenetModel (captured (closure r w))) as [model |];
      cbn [fst snd]; [| split; [reflexivity | exists []; cbn; rewrite app_nil_r; tauto]].
    destruct (classify model t 1) as [[| top rest] |]; cbn [fst snd];
      try destruct (0.3 <? probability top)%float; cbn;
      (split; [reflexivity |]); rewrite <- ?app_assoc; eexists; split; reflexivity.
  - cbn. split; [reflexivity |]. exists []. rewrite app_nil_r. tauto.
Qed.

(** X6: a prediction found from the initial prediction state is undone by
    the reset: after [getPrediction] has accepted a top result,
    [loadNewPrediction] gives back the hooks as they were before. *)
Theorem loadNewPrediction_undoes_prediction :
  forall (r : nat) (t : Tensor) (model : Model)
         (top : Prediction) (rest : list Prediction) (w : World),
    predictionFound (hooks w) = false ->
    prediction (hooks w) = "" ->
    mobilenetModel (captured (closure r w)) = Some model ->
    classify model t 1 = Some (top :: rest) ->
    (0.3 <? probability top)%float = true ->
    predictionFound (hooks (snd (getPrediction r (Some t) w))) = true /\
    hooks (snd (loadNewPrediction (snd (getPrediction r (Some t) w)))) = hooks w.
Proof.
  intros r t model top rest w Hfound Hlabel Hmodel Hanswer Habove.
  run_js. rewrite Hmodel. cbn [fst snd]. rewrite Hanswer, Habove. cbn.
  split; [reflexivity |].
  destruct (hooks w) as [f p l m fr]. cbn in *. subst. reflexivity.
Qed.

Lemma loadNewPrediction_undoes_prediction_witness :
  predictionFound
    (hooks (snd (getPrediction 2 (Some frame0) (started sureModel)))) = true /\
  hooks (snd (loadNewPrediction
                (snd (getPrediction 2 (Some frame0) (started sureModel))))) =
    hooks (started sureModel).
Proof.
  apply (loadNewPrediction_undoes_prediction
           2 frame0 sureModel joystick [] (started sureModel));
    reflexivity.
Defined.

(** ** One run of loop *)


(** X5: [loop] stores the id of the frame it asked for in the variable of
    its own render, so that the cleanup of that same render cancels
    exactly this frame: after [loop] and then [cleanup] of render [r] the
    pending frames are those [getPrediction] left. *)
Theorem cleanup_cancels_frame_of_same_render :
  forall (r : nat) (next : option Tensor) (w w1 : World) (c : Render),
    renders w !! r = Some c ->
    (forall (id : Z) (r' : nat),
        scheduled w !! id = Some r' -> id < nextFrameId w) ->
    getPrediction r next (logCall CallNext w) = (Normal tt, w1) ->
    let w2 := snd (loop r next w) in
    requestAnimationFrameId (closure r w2) = nextFrameId w1 /\
    scheduled w2 !! nextFrameId w1 = Some r /\
    scheduled (snd (cleanup r w2)) = scheduled w1.
Proof.
  intros r next w w1 c Hr Hfresh Hget.
  destruct (getPrediction_timer r next (logCall CallNext w))
    as (Hrenders & Hnext & Hsub).
  rewrite Hget in Hrenders, Hnext, Hsub. cbn [fst snd] in *.
  change (renders (logCall CallNext w)) with (renders w) in Hrenders.
  change (nextFrameId (logCall CallNext w)) with (nextFrameId w) in Hnext.
  change (scheduled (logCall CallNext w)) with (scheduled w) in Hsub.
  assert (Hnew : scheduled w1 !! nextFrameId w1 = None).
  { destruct (scheduled w1 !! nextFrameId w1) as [r' |] eqn:Hold; [| reflexivity].
    apply Hsub, Hfresh in Hold. lia. }
  unfold loop. cbv [mbind Js_bind call effect]. rewrite Hget.
  run_js. unfold closure. cbn. rewrite Hrenders, Hr.
  rewrite list_lookup_insert_eq by (eapply lookup_lt_Some, Hr). cbn.
  split; [reflexivity |]. split; [apply lookup_insert_eq |].
  rewrite delete_insert_eq. apply delete_id, Hnew.
Qed.

Lemma cleanup_cancels_frame_of_same_render_witness :
  requestAnimationFrameId
    (closure 2 (snd (loop 2 None (started unsureModel)))) =
    nextFrameId (logCall CallNext (started unsureModel)) /\
  scheduled (snd (loop 2 None (started unsureModel)))
    !! nextFrameId (logCall CallNext (started unsureModel)) = Some 2%nat /\
  scheduled (snd (cleanup 2 (snd (loop 2 None (started unsureModel))))) =
    scheduled (logCall CallNext (started unsureModel)).
Proof.
  apply (cleanup_cancels_frame_of_same_render
           2 None (started unsureModel)
           (logCall CallNext (started unsureModel))
           (mkRender (hooks (started unsureModel)) 0)).
  - vm_compute. reflexivity.
  - intros id r'. vm_compute. discriminate.
  - reflexivity.
Defined.

(** ** The screen *)

(** X7: [handleCameraStream] of a render that shows the camera view
    always starts the loop, its [predictionFound] test cannot fail there;
    for a render that shows anything else it does nothing. *)
Theorem camera_on_screen_starts_loop :
  forall (r : nat) (next : option Tensor) (w : World),
    (body (captured (closure r w)) = View "body" [renderCameraView] ->
     handleCameraStream r next w = loop r next w) /\
    (body (captured (closure r w)) <> View "body" [renderCameraView] ->
     handleCameraStream r next w = (Normal tt, w)).
Proof.
  intros r next w. unfold handleCameraStream, body.
  cbv [mbind Js_bind readHooksOf mret Js_ret].
  destruct (predictionFound (captured (closure r w))); cbn; split;
    first [ reflexivity | discriminate | intros Hsame; contradiction Hsame; reflexivity
          | intros _; reflexivity ].
Qed.

(** X8: the spinner is never on screen: [showPredictionView] holds it for
    [predictionFound] false, and [App] calls [showPredictionView] only for
    [predictionFound] true. *)
Theorem App_never_shows_ActivityIndicator :
  forall s : State,
    showsActivityIndicator (App s) = false /\
    showsActivityIndicator (showPredictionView s) = negb (predictionFound s).
Proof.
  intros s. unfold App, body, showPredictionView, renderCameraView.
  destruct (predictionFound s); split; reflexivity.
Qed.

(** X9: on every platform the camera texture is larger than the tensor in
    both directions, the tensor is upright (152 by 200), the texture is
    upright on iOS only, and on no platform has the tensor the proportions
    of the texture. *)
Theorem camera_downscales_to_portrait_tensor :
  forall os : string,
    let p := cameraProps os in
    resizeWidth p < cameraTextureWidth p /\
    resizeHeight p < cameraTextureHeight p /\
    resizeWidth p < resizeHeight p /\
    (cameraTextureWidth p < cameraTextureHeight p <-> os = "ios") /\
    resizeWidth p * cameraTextureHeight p <> resizeHeight p * cameraTextureWidth p.
Proof.
  intros os. unfold cameraProps, textureDims.
  destruct (String.eqb_spec os "ios") as [-> | Hother]; cbn.
  - repeat split; try lia; discriminate.
  - repeat split; try lia; try discriminate.
    intros Hios. contradiction.
Qed.

(** ** What holds between any two events *)

Lemma handled_refl (w : World) : handled w w.
Proof.
  repeat split; try tauto.
  exists []. rewrite app_nil_r. split; reflexivity.
Qed.

Lemma captured_after_assign (rs : list Render) (r r' : nat) (id : Z) :
  captured
    (default (mkRender initialState 0)
       (match rs !! r with
        | Some c => <[r := mkRender (captured c) id]> rs
        | None => rs
        end !! r')) =
  captured (default (mkRender initialState 0) (rs !! r')).
Proof.
  destruct (rs !! r) as [c |] eqn:Hr; [| reflexivity].
  destruct (decide (r' = r)) as [-> | Hne].
  - rewrite list_lookup_insert_eq by (eapply lookup_lt_Some, Hr).
    rewrite Hr. reflexivity.
  - rewrite list_lookup_insert_ne by congruence. reflexivity.
Qed.

Lemma getPrediction_handled (r : nat) (tensor : option Tensor) (w : World) :
  handled w (snd (getPrediction r tensor w)).
Proof.
  destruct tensor as [t |]; [| apply handled_refl].
  split_getPrediction r t w; try apply handled_refl.
  - repeat split; try tauto. exists [CallClassify t 1]. split; reflexivity.
  - repeat split; cbn.
    + made_calls.
    + right. right. split; [reflexivity |].
      exists r, model. split; [exact Hmodel |].
      exists t, top, rest. repeat split; try assumption.
      rewrite !in_app_iff. cbn. tauto.
  - repeat split; try tauto. exists [CallClassify t 1]. split; reflexivity.
  - repeat split; try tauto. exists [CallClassify t 1]. split; reflexivity.
Qed.

Lemma handled_logCall_before (c : Call) (w w' : World) :
  isInitCall c = false ->
  handled (logCall c w) w' -> handled w w'.
Proof.
  intros Hc (Hi & Hp & Hm & Hf & Hcap & (made & Hcalls & Hmade) & Hlabel).
  repeat split; try assumption.
  exists (c :: made). split.
  - rewrite Hcalls. cbn. rewrite <- app_assoc. reflexivity.
  - cbn. rewrite Hc. exact Hmade.
Qed.

Lemma handled_request (r : nat) (w w' : World) :
  handled w w' ->
  handled w
    (snd ((id ← requestAnimationFrame r; assignRequestAnimationFrameId r id) w')).
Proof.
  intros (Hi & Hp & Hm & Hf & Hcap & (made & Hcalls & Hmade) & Hlabel).
  run_js. repeat split; try assumption.
  - intros r'. rewrite <- Hcap. unfold closure. cbn.
    apply captured_after_assign.
  - exists (made ++ [CallRequestAnimationFrame (nextFrameId w')]). split.
    + cbn. rewrite Hcalls, <- app_assoc. reflexivity.
    + rewrite List.filter_app, Hmade. reflexivity.
  - destruct Hlabel as [Hsame | [Hreset | (Hfound & r0 & model & Hmodel & Hacc)]];
      [left; exact Hsame | right; left; exact Hreset |].
    right. right. split; [exact Hfound |]. exists r0, model.
    split; [exact Hmodel |].
    destruct Hacc as (t & top & rest & Hans & Habove & Hlab & Hin).
    exists t, top, rest. repeat split; try assumption.
    cbn. rewrite in_app_iff. left. exact Hin.
Qed.

Lemma loop_handled (r : nat) (next : option Tensor) (w : World) :
  handled w (snd (loop r next w)).
Proof.
  unfold loop.
  pose proof (getPrediction_handled r next (logCall CallNext w)) as Hget.
  apply (handled_logCall_before CallNext) in Hget; [| reflexivity].
  cbv [mbind Js_bind call effect]. cbn [fst snd].
  destruct (getPrediction r next (logCall CallNext w)) as [[[] | e] w'];
    cbn [fst snd] in *; [| exact Hget].
  apply (handled_request r w w' Hget).
Qed.

Lemma handleCameraStream_handled (r : nat) (next : option Tensor) (w : World) :
  handled w (snd (handleCameraStream r next w)).
Proof.
  unfold handleCameraStream. cbv [mbind Js_bind readHooksOf mret Js_ret].
  destruct (negb _); [apply loop_handled | apply handled_refl].
Qed.

Lemma loadNewPrediction_handled (w : World) :
  handled w (snd (loadNewPrediction w)).
Proof.
  run_js. repeat split; cbn.
  - made_calls.
  - right. left. split; reflexivity.
Qed.

Lemma cleanup_handled (r : nat) (w : World) :
  handled w (snd (cleanup r w)).
Proof.
  run_js. repeat split; try tauto. cbn. made_calls.
Qed.

Lemma accepted_later (model : Model) (log made : list Call) (label : string) :
  accepted model log label -> accepted model (log ++ made) label.
Proof.
  intros (t & top & rest & Hans & Habove & Hlab & Hin).
  exists t, top, rest. repeat split; try assumption.
  apply in_app_iff. left. exact Hin.
Qed.

Lemma invariant_handled (w w' : World) :
  componentInvariant w -> handled w w' -> componentInvariant w'.
Proof.
  intros (Hcap & Hstage & Hfound & Hempty & Hinit)
         (Hi & Hp & Hm & Hf & Hclos & (made & Hcalls & Hmade) & Hlabel).
  unfold componentInvariant. rewrite Hi, Hm, Hf.
  split; [| split; [exact Hstage | split; [| split]]].
  - intros r model. rewrite Hclos. apply Hcap.
  - intros Htrue.
    destruct Hlabel as [[Hsf Hsl] | [[Hreset _] | (_ & r & model & Hmodel & Hacc)]].
    + rewrite Hsf in Htrue. destruct (Hfound Htrue) as (model & Hmodel & Hacc).
      exists model. split; [exact Hmodel |].
      rewrite Hsl, Hcalls. apply accepted_later, Hacc.
    + congruence.
    + exists model. split; [apply (Hcap r), Hmodel | exact Hacc].
  - intros Hfalse.
    destruct Hlabel as [[Hsf Hsl] | [[_ Hreset] | (Htrue & _)]].
    + rewrite Hsl. apply Hempty. congruence.
    + exact Hreset.
    + congruence.
  - unfold initCalls. rewrite Hcalls, List.filter_app, Hmade, app_nil_r.
    exact Hinit.
Qed.

Lemma closure_after_render (w : World) (s : State) (r : nat) :
  captured
    (default (mkRender initialState 0) ((renders w ++ [mkRender s 0]) !! r)) =
  captured (closure r w) \/
  captured
    (default (mkRender initialState 0) ((renders w ++ [mkRender s 0]) !! r)) = s.
Proof.
  unfold closure.
  destruct (decide (r < length (renders w))%nat) as [Hlt | Hge].
  - left. rewrite lookup_app_l by exact Hlt. reflexivity.
  - destruct (decide (r = length (renders w))) as [-> | Hne].
    + right. rewrite list_lookup_middle by reflexivity. reflexivity.
    + left. rewrite !lookup_ge_None_2; [reflexivity | lia |].
      rewrite length_app. cbn. lia.
Qed.

Lemma invariant_rerender (w : World) :
  componentInvariant w -> componentInvariant (rerender w).
Proof.
  intros (Hcap & Hstage & Hfound & Hempty & Hinit).
  assert (Hcap' : forall (r : nat) (model : Model),
    mobilenetModel
      (captured (default (mkRender initialState 0)
                   ((renders w ++ [mkRender (hooks w) 0]) !! r))) = Some model ->
    mobilenetModel (hooks w) = Some model).
  { intros r model.
    destruct (closure_after_render w (hooks w) r) as [-> | ->];
      [apply Hcap | tauto]. }
  unfold rerender. destruct (unmountEffect w) as [owner dep].
  destruct (dep =? _).
  - unfold componentInvariant, closure, initCalls. cbn.
    repeat split; try assumption.
  - unfold componentInvariant. unfold closure, initCalls. cbn.
    split; [exact Hcap' |]. split; [exact Hstage |]. split; [| split].
    + intros Htrue. destruct (Hfound Htrue) as (model & Hmodel & Hacc).
      exists model. split; [exact Hmodel | apply accepted_later, Hacc].
    + exact Hempty.
    + rewrite List.filter_app. cbn. rewrite app_nil_r. exact Hinit.
Qed.

Lemma invariant_settle (c : Js unit) (w0 w : World) :
  componentInvariant w ->
  handled w (snd (c w0)) ->
  componentInvariant (settle c w0).
Proof.
  intros Hw Hc. pose proof (invariant_handled _ _ Hw Hc) as Hafter.
  unfold settle. destruct (c w0) as [[a | e] w']; cbn [fst snd] in *.
  - destruct (dirty w' && mounted w'); [apply invariant_rerender |]; exact Hafter.
  - assert (Hlogged : componentInvariant (logCall UnhandledRejection w')).
    { apply (invariant_handled w'); [exact Hafter |].
      repeat split; try tauto. exists [UnhandledRejection]. split; reflexivity. }
    change (dirty (logCall UnhandledRejection w')) with (dirty w').
    change (mounted (logCall UnhandledRejection w')) with (mounted w').
    destruct (dirty w' && mounted w'); [apply invariant_rerender |]; exact Hlogged.
Qed.

Lemma invariant_step (e : Event) (w : World) :
  componentInvariant w -> componentInvariant (step e w).
Proof.
  intros Hw.
  destruct e as [status | | model | next | id next | |]; cbn [step].
  - destruct (initEffect w) eqn:Hstage; try exact Hw.
    destruct Hw as (Hcap & Hst & Hfound & Hempty & Hinit).
    rewrite Hstage in Hst, Hinit.
    assert (Hset : componentInvariant
      (snd (setHasPermission (String.eqb status "granted")
              (withInitEffect (AwaitTfReady status) w)))).
    { run_js. unfold componentInvariant, closure, initCalls in *. cbn.
      split; [exact Hcap |]. split; [exact Hst |]. split; [| split].
      - intros Htrue. destruct (Hfound Htrue) as (m & Hm & Hacc).
        exists m. split; [exact Hm | apply accepted_later, Hacc].
      - exact Hempty.
      - rewrite List.filter_app, Hinit. reflexivity. }
    unfold settle. revert Hset. run_js. intros Hset.
    match goal with
    | |- context [if ?b then _ else _] => destruct b
    end; [apply invariant_rerender |]; exact Hset.
  - destruct (initEffect w) eqn:Hstage; try exact Hw.
    destruct Hw as (Hcap & Hst & Hfound & Hempty & Hinit).
    rewrite Hstage in Hst, Hinit.
    unfold componentInvariant, closure, initCalls in *. cbn.
    repeat split; try tauto.
  - destruct (initEffect w) eqn:Hstage; try exact Hw.
    destruct Hw as (Hcap & Hst & Hfound & Hempty & Hinit).
    rewrite Hstage in Hst, Hinit. destruct Hst as [Hready Hnone].
    assert (Hnotfound : predictionFound (hooks w) = false).
    { destruct (predictionFound (hooks w)); [| reflexivity].
      destruct (Hfound eq_refl) as (m & Hm & _). congruence. }
    assert (Hset : componentInvariant
      (snd ((setMobilenetModel (Some model);; setFrameworkReady true)
              (withInitEffect (InitDone status) w)))).
    { run_js. unfold componentInvariant, closure, initCalls in *. cbn.
      split; [| split; [| split; [| split]]].
      - intros r m Hm. apply Hcap in Hm. congruence.
      - split; [reflexivity | eexists; reflexivity].
      - intros Htrue. congruence.
      - exact Hempty.
      - rewrite !List.filter_app, Hinit. reflexivity. }
    unfold settle. revert Hset. run_js. intros Hset.
    match goal with
    | |- context [if ?b then _ else _] => destruct b
    end; [apply invariant_rerender |]; exact Hset.
  - destruct (mounted w && _); [| exact Hw].
    apply (invariant_settle _ w w Hw), handleCameraStream_handled.
  - destruct (scheduled w !! id) as [r |]; [| exact Hw].
    apply (invariant_settle _ _ (withScheduled (delete id) w)); [exact Hw |].
    apply loop_handled.
  - destruct (mounted w && _); [| exact Hw].
    apply (invariant_settle _ w w Hw), loadNewPrediction_handled.
  - destruct (mounted w); [| exact Hw].
    apply (invariant_settle _ _ (withMounted false w)); [exact Hw |].
    apply cleanup_handled.
Qed.

Lemma reachable_componentInvariant (w : World) :
  reachable w -> componentInvariant w.
Proof.
  intros [events ->].
  induction events as [| e events IH] using rev_ind.
  - unfold componentInvariant, closure, initCalls. cbn.
    split; [| repeat split; discriminate].
    intros [| r] model; cbn; discriminate.
  - rewrite run_snoc. apply invariant_step, IH.
Qed.



(** X11: while the camera view is on, that is while [predictionFound] is
    false, the stored prediction is the empty string. *)
Theorem camera_view_has_empty_prediction :
  forall w : World,
    reachable w ->
    predictionFound (hooks w) = false ->
    prediction (hooks w) = "".
Proof.
  intros w Hreach Hfalse.
  destruct (reachable_componentInvariant w Hreach) as (_ & _ & _ & Hempty & _).
  apply Hempty, Hfalse.
Qed.

Lemma camera_view_has_empty_prediction_witness :
  prediction (hooks (step PressCheckNewPrediction found)) = "".
Proof.
  apply (camera_view_has_empty_prediction (step PressCheckNewPrediction found)).
  - destruct reachable_found as [events Hfound].
    exists (events ++ [PressCheckNewPrediction]).
    rewrite run_snoc, <- Hfound. reflexivity.
  - vm_compute. reflexivity.
Defined.



(** X13: the first effect runs once: whatever else happens, the log holds
    [setHasPermission], [setMobilenetModel] and [setFrameworkReady(true)]
    at most once each, in this order, as far as the effect has come. *)
Theorem first_effect_calls_its_setters_once :
  forall w : World,
    reachable w ->
    initCalls w = initCallsAt (initEffect w) /\
    (countCalls isInitCall (calls w) <= 3)%nat /\
    (countCalls isInitCall (calls w) = 3%nat <->
     exists status : string, initEffect w = InitDone status).
Proof.
  intros w Hreach.
  destruct (reachable_componentInvariant w Hreach) as (_ & _ & _ & _ & Hinit).
  split; [exact Hinit |].
  unfold countCalls. fold (initCalls w). rewrite Hinit.
  destruct (initEffect w) as [| | status | status | status]; cbn;
    (split; [lia |]); split; intros Hdone;
    try discriminate Hdone; try (destruct Hdone; discriminate);
    try reflexivity.
  exists status. reflexivity.
Qed.

Lemma first_effect_calls_its_setters_once_witness :
  initCalls polling = initCallsAt (initEffect polling) /\
  (countCalls isInitCall (calls polling) <= 3)%nat /\
  (countCalls isInitCall (calls polling) = 3%nat <->
   exists status : string, initEffect polling = InitDone status).
Proof.
  apply (first_effect_calls_its_setters_once polling reachable_polling).
Defined.

(** X14: the closures of a render hold either no model or the one that
    is loaded, never another one. *)
Theorem closures_hold_no_other_model :
  forall (w : World) (r : nat) (model : Model),
    reachable w ->
    mobilenetModel (captured (closure r w)) = Some model ->
    mobilenetModel (hooks w) = Some model.
Proof.
  intros w r model Hreach.
  destruct (reachable_componentInvariant w Hreach) as (Hcap & _).
  apply Hcap.
Qed.

Lemma closures_hold_no_other_model_witness :
  mobilenetModel (hooks found) = Some sureModel.
Proof.
  apply (closures_hold_no_other_model found 2 sureModel reachable_found).
  vm_compute. reflexivity.
Defined.

(** X15: pressing the reset button on the prediction view clears the two
    prediction hooks and renders the camera view in a new render whose
    [requestAnimationFrameId] is 0; it neither cancels a pending frame nor
    asks for one. *)
Theorem reset_rerenders_camera_and_keeps_frames :
  forall w : World,
    reachable w ->
    mounted w = true ->
    predictionFound (captured (closure (latest w) w)) = true ->
    let w' := step PressCheckNewPrediction w in
    hooks w' = mkState false (hasPermission (hooks w)) ""
                       (mobilenetModel (hooks w)) (frameworkReady (hooks w)) /\
    renders w' = renders w ++ [mkRender (hooks w') 0] /\
    scheduled w' = scheduled w /\
    nextFrameId w' = nextFrameId w /\
    body (captured (closure (latest w') w')) = View "body" [renderCameraView].
Proof.
  intros w Hreach Hmounted Hshown.
  destruct (reachable_effectsInvariant w Hreach) as [_ Hclean].
  red in Hclean. cbn [step]. rewrite Hmounted, Hshown. cbn [andb].
  unfold settle. run_js. cbn. rewrite Hmounted. cbn.
  unfold rerender. cbn. rewrite Hclean. cbn.
  repeat split.
  unfold latest, closure. cbn. rewrite length_app. cbn.
  replace (Nat.pred (length (renders w) + 1)) with (length (renders w)) by lia.
  rewrite list_lookup_middle by reflexivity. reflexivity.
Qed.

Lemma reset_rerenders_camera_and_keeps_frames_witness :
  hooks (step PressCheckNewPrediction found) =
    mkState false (hasPermission (hooks found)) ""
            (mobilenetModel (hooks found)) (frameworkReady (hooks found)) /\
  renders (step PressCheckNewPrediction found) =
    renders found ++ [mkRender (hooks (step PressCheckNewPrediction found)) 0] /\
  scheduled (step PressCheckNewPrediction found) = scheduled found /\
  nextFrameId (step PressCheckNewPrediction found) = nextFrameId found /\
  body (captured (closure (latest (step PressCheckNewPrediction found))
                    (step PressCheckNewPrediction found))) =
    View "body" [renderCameraView].
Proof.
  apply (reset_rerenders_camera_and_keeps_frames found reachable_found);
    vm_compute; reflexivity.
Defined.

(** ** The ends of a loop *)

Lemma reachable_cleanup_of_first_render_witness :
  unmountEffect polling = (0%nat, 0).
Proof.
  apply (reachable_cleanup_of_first_render polling reachable_polling).
Defined.

Lemma unmount_spares_later_renders_witness :
  mounted (step Unmount polling) = false /\
  scheduled (step Unmount polling) !! 1 = Some 2%nat.
Proof.
  apply (unmount_spares_later_renders polling 1 2 reachable_polling).
  - vm_compute. reflexivity.
  - vm_compute. reflexivity.
  - discriminate.
Defined.

Lemma fired_loop_asks_again_witness :
  scheduled (step (AnimationFrame 1 None) found)
    !! nextFrameId (logCall CallNext (withScheduled (delete 1) found)) =
  Some 2%nat.
Proof.
  apply (fired_loop_asks_again
           found (logCall CallNext (withScheduled (delete 1) found))
           1 2 None reachable_found).
  - vm_compute. reflexivity.
  - reflexivity.
Defined.

Lemma rerender_rendered (w : World) : rendered (rerender w).
Proof.
  unfold rendered, rerender. destruct (unmountEffect w) as [owner dep].
  destruct (dep =? _); reflexivity.
Qed.

Lemma settle_rendered (c : Js unit) (w : World) : rendered (settle c w).
Proof.
  unfold settle.
  match goal with
  | |- rendered (if dirty ?x && mounted ?x then _ else _) =>
      destruct (dirty x && mounted x) eqn:Hdue;
      [apply rerender_rendered | exact Hdue]
  end.
Qed.

Lemma step_rendered (e : Event) (w : World) :
  rendered w -> rendered (step e w).
Proof.
  intros Hw.
  destruct e as [status | | model | next | id next | |]; cbn [step].
  - destruct (initEffect w); try exact Hw. apply settle_rendered.
  - destruct (initEffect w); exact Hw.
  - destruct (initEffect w); try exact Hw. apply settle_rendered.
  - destruct (mounted w && _); [apply settle_rendered | exact Hw].
  - destruct (scheduled w !! id); [apply settle_rendered | exact Hw].
  - destruct (mounted w && _); [apply settle_rendered | exact Hw].
  - destruct (mounted w); [apply settle_rendered | exact Hw].
Qed.

Lemma reachable_rendered (w : World) : reachable w -> rendered w.
Proof.
  intros [events ->].
  induction events as [| e events IH] using rev_ind.
  - reflexivity.
  - rewrite run_snoc. apply step_rendered, IH.
Qed.

(** X19: a loop whose render captured no model ends at its first tensor:
    when its frame fires with a tensor, [getPrediction] throws, the frame
    is gone, no new one is asked for, and hooks and renders are as they
    were. *)
Theorem loop_without_model_ends_at_first_tensor :
  forall (w : World) (id : Z) (r : nat) (t : Tensor),
    reachable w ->
    scheduled w !! id = Some r ->
    mobilenetModel (captured (closure r w)) = None ->
    let w' := step (AnimationFrame id (Some t)) w in
    scheduled w' = delete id (scheduled w) /\
    calls w' = calls w ++ [CallNext; UnhandledRejection] /\
    hooks w' = hooks w /\
    renders w' = renders w.
Proof.
  intros w id r t Hreach Hid Hnone.
  pose proof (reachable_rendered w Hreach) as Hdue. red in Hdue.
  cbn [step]. rewrite Hid. unfold settle, loop.
  cbv [mbind Js_bind call effect]. cbn [fst snd].
  rewrite getPrediction_without_model by exact Hnone.
  cbn. rewrite Hdue. cbn. rewrite <- app_assoc. repeat split.
Qed.

Lemma loop_without_model_ends_at_first_tensor_witness :
  scheduled (step (AnimationFrame 1 (Some frame0)) earlyCamera) =
    delete 1 (scheduled earlyCamera) /\
  calls (step (AnimationFrame 1 (Some frame0)) earlyCamera) =
    calls earlyCamera ++ [CallNext; UnhandledRejection] /\
  hooks (step (AnimationFrame 1 (Some frame0)) earlyCamera) = hooks earlyCamera /\
  renders (step (AnimationFrame 1 (Some frame0)) earlyCamera) =
    renders earlyCamera.
Proof.
  apply (loop_without_model_ends_at_first_tensor earlyCamera 1 0 frame0).
  - exists [CameraReady None; PermissionsResolved "granted"; TfReady;
            MobilenetLoaded sureModel].
    reflexivity.
  - vm_compute. reflexivity.
  - vm_compute. reflexivity.
Defined.

(** ** A reset and the loops *)

(** The world after the reset button, when the prediction view is on
    screen. *)
Lemma press_reset (w : World) :
  reachable w ->
  mounted w = true ->
  predictionFound (captured (closure (latest w) w)) = true ->
  step PressCheckNewPrediction w =
    let s := mkState false (hasPermission (hooks w)) ""
                     (mobilenetModel (hooks w)) (frameworkReady (hooks w)) in
    mkWorld s false (renders w ++ [mkRender s 0]) (scheduled w) (nextFrameId w)
            (initEffect w) (unmountEffect w) true
            ((calls w ++ [CallSetPrediction ""]) ++ [CallSetPredictionFound false]).
Proof.
  intros Hreach Hmounted Hshown.
  destruct (reachable_effectsInvariant w Hreach) as [_ Hclean].
  red in Hclean. cbn [step]. rewrite Hmounted, Hshown. cbn [andb].
  unfold settle. run_js. cbn. rewrite Hmounted. cbn.
  unfold rerender. cbn. rewrite Hclean. cbn. rewrite Hmounted. reflexivity.
Qed.

Lemma latest_after_render (rs : list Render) (c : Render) :
  Nat.pred (length (rs ++ [c])) = length rs /\
  (rs ++ [c]) !! length rs = Some c.
Proof.
  split.
  - rewrite length_app. cbn. lia.
  - apply list_lookup_middle. reflexivity.
Qed.

(** X20: the reset starts one more loop and stops none: with a model
    loaded and the prediction view on screen, after the reset button and
    the next [onReady] of the camera every frame that was pending is still
    pending, and a new frame is pending for the loop of the new render. *)
Theorem reset_adds_a_loop :
  forall (w : World) (id : Z) (r : nat) (model : Model) (next : option Tensor),
    reachable w ->
    mounted w = true ->
    predictionFound (captured (closure (latest w) w)) = true ->
    mobilenetModel (hooks w) = Some model ->
    scheduled w !! id = Some r ->
    let w2 := step (CameraReady next) (step PressCheckNewPrediction w) in
    scheduled w2 !! id = Some r /\
    scheduled w2 !! nextFrameId w = Some (length (renders w)) /\
    id <> nextFrameId w.
Proof.
  intros w id r model next Hreach Hmounted Hshown Hmodel Hid.
  destruct (reachable_effectsInvariant w Hreach) as [_ Hclean]. red in Hclean.
  destruct (reachable_timerInvariant w Hreach) as (_ & Hids & _).
  destruct (Hids id r Hid) as [Hpos Hold].
  rewrite (press_reset w Hreach Hmounted Hshown). cbn zeta.
  cbn [step mounted]. unfold latest, closure. cbn [renders].
  destruct (latest_after_render (renders w)
              (mkRender (mkState false (hasPermission (hooks w)) ""
                           (mobilenetModel (hooks w)) (frameworkReady (hooks w))) 0))
    as [-> Hnew].
  rewrite Hnew. cbn [default captured predictionFound negb andb].
  unfold settle, handleCameraStream.
  cbv [mbind Js_bind readHooksOf mret Js_ret]. unfold closure. cbn [renders fst snd].
  rewrite Hnew. cbn [default captured predictionFound negb].
  destruct next as [t |]; run_js; unfold closure; cbn; rewrite ?Hnew; cbn.
  - rewrite Hmodel. cbn.
    destruct (classify model t 1) as [[| top rest] |]; cbn;
      try destruct (0.3 <? probability top)%float; cbn;
      unfold rerender; cbn; rewrite ?Hclean; cbn;
      rewrite ?(proj2 (latest_after_render _ _)); cbn;
      (split; [| split; [| lia]]);
      rewrite ?lookup_insert_eq; try reflexivity;
      rewrite lookup_insert_ne by lia;
      rewrite ?lookup_delete_ne by lia; exact Hid.
  - split; [| split; [| lia]].
    + rewrite lookup_insert_ne by lia. exact Hid.
    + apply lookup_insert_eq.
Qed.

Lemma reset_adds_a_loop_witness :
  scheduled (step (CameraReady (Some frame1))
               (step PressCheckNewPrediction found)) !! 1 = Some 2%nat /\
  scheduled (step (CameraReady (Some frame1))
               (step PressCheckNewPrediction found)) !! nextFrameId found =
    Some (length (renders found)) /\
  1 <> nextFrameId found.
Proof.
  apply (reset_adds_a_loop found 1 2 sureModel (Some frame1) reachable_found);
    vm_compute; reflexivity.
Defined.
